(** * Shape diameter function (libslic3r/ShapeDiameterFunction.hpp)

    A shallow embedding of the declarations of [ShapeDiameterFunction]: the
    data transfer objects ([Direction], [PointRadius], [AABBTree]), the three
    configuration records with their default member initialisers and inline
    predicates, and models of the static functions the header declares.

    Numbers.  A C++ [float] is modelled by the rational number a finite
    binary32 value denotes; NaN and the infinities are outside the model.
    Literals are the rationals obtained by rounding the decimal literal to
    binary32, so [0.3f] is [5033165 / 16777216] and not [3 / 10].
    Comparisons of floats are comparisons of rationals.  Arithmetic is exact
    (no rounding), except in the statistics of the width estimator: the
    header warns that means and deviations are computed in float precision
    only, so there the four operations are parameters ([FloatArith]) of
    which nothing is assumed.  Square roots are avoided by comparing
    squares; the direction sampler, which needs sine and cosine, is modelled
    over the real numbers in [Module FibonacciSphere]. *)

From Stdlib Require Import ZArith QArith Qminmax Reals Psatz List.
From Stdlib Require Import Permutation.
From Stdlib Require Import Floats.SpecFloat.
From stdpp Require Import base list.

Local Open Scope Q_scope.

(** * Definitions *)

(** ** Numbers *)

Module Binary32.

Definition prec : Z := 24.
Definition emax : Z := 128.

(** An integer, rounded to binary32. *)
Definition of_Z (z : Z) : spec_float := binary_normalize prec emax z 0 false.

(** The decimal literal [n / d], rounded to the nearest binary32 value. *)
Definition literal (n d : Z) : spec_float :=
  SFdiv prec emax (of_Z n) (of_Z d).

(** The rational a binary32 value denotes. *)
Definition to_Q (f : spec_float) : Q :=
  match f with
  | S754_finite s m e =>
      Qred (inject_Z (cond_Zopp s (Zpos m)) * Qpower (2 # 1) e)
  | _ => 0%Q
  end.

End Binary32.

Definition float : Type := Q.

(** [f32 n d] is the value of the C++ literal written [n / d] as a decimal
    with suffix [f]: [f32 3 10] is [0.3f]. *)
Definition f32 (n d : Z) : float := Binary32.to_Q (Binary32.literal n d).

(** The operators [<] and [<=] of C++ on floats. *)
Definition float_lt (x y : float) : bool := negb (Qle_bool y x).
Definition float_le (x y : float) : bool := Qle_bool x y.

(** The operators [+], [-], [*] and [/] of C++ on floats, with whatever
    rounding the target gives them.  For a zero divisor [fdiv] stands for a
    result the model does not hold (NaN or an infinity). *)
Class FloatArith : Type := {
  fadd : float -> float -> float;
  fsub : float -> float -> float;
  fmul : float -> float -> float;
  fdiv : float -> float -> float
}.

(** The operations without rounding. *)
#[export] Instance exact_arithmetic : FloatArith := {|
  fadd := Qplus;
  fsub := Qminus;
  fmul := Qmult;
  fdiv := Qdiv
|}.

(** The operations of [arith] agree with the rational ones on all floats;
    for the quotient, on all non-zero divisors. *)
Definition rounding_free (arith : FloatArith) : Prop :=
  (forall x y, fadd x y == x + y)
  /\ (forall x y, fsub x y == x - y)
  /\ (forall x y, fmul x y == x * y)
  /\ (forall x y, ~ y == 0 -> fdiv x y == x / y).

(** ** Vectors (Point.hpp: [Vec3f] is an Eigen column of three floats) *)

Record Vec3f : Type := mkVec3f { vx : float; vy : float; vz : float }.

Definition vadd (a b : Vec3f) : Vec3f :=
  mkVec3f (vx a + vx b) (vy a + vy b) (vz a + vz b).
Definition vsub (a b : Vec3f) : Vec3f :=
  mkVec3f (vx a - vx b) (vy a - vy b) (vz a - vz b).
Definition vscale (k : float) (a : Vec3f) : Vec3f :=
  mkVec3f (k * vx a) (k * vy a) (k * vz a).
Definition vneg (a : Vec3f) : Vec3f := mkVec3f (- vx a) (- vy a) (- vz a).
Definition vdot (a b : Vec3f) : float :=
  (vx a * vx b + vy a * vy b + vz a * vz b)%Q.

(** Squared Euclidean distance, [(a - b).squaredNorm()]. *)
Definition dist2 (a b : Vec3f) : float := vdot (vsub a b) (vsub a b).

(** [distance(a, b) <= r] and [distance(a, b) < r], decided on squares. *)
Definition dist_le (a b : Vec3f) (r : float) : bool :=
  float_le 0 r && float_le (dist2 a b) (r * r).
Definition dist_lt (a b : Vec3f) (r : float) : bool :=
  float_lt 0 r && float_lt (dist2 a b) (r * r).

(** ** Data transfer objects of the header *)

(** [struct Direction { Vec3f dir; float weight; }] *)
Record Direction : Type := mkDirection { dir : Vec3f; weight : float }.
Definition Directions : Type := list Direction.

(** [struct PointRadius { Vec3f point; float radius; }] *)
Record PointRadius : Type := mkPointRadius { point : Vec3f; radius : float }.
Definition PointRadiuses : Type := list PointRadius.

(** [indexed_triangle_set]: shared vertices and index triples. *)
Record indexed_triangle_set : Type := mkIts {
  vertices : list Vec3f;
  indices : list (nat * nat * nat)
}.

(** ** struct ShapeDiameterFunction::RaysConfig *)

Module RaysConfig.

Record t : Type := mk {
  allowed_deviation : float;
  allowed_angle : float;
  dirs : Directions;
  safe_move : float;
  normal_z_max : float
}.

(** [RaysConfig() = default]: the default member initialisers.  The default
    direction set is [create_fibonacci_sphere_samples(120., 60)], a function
    the header only declares; its value is the parameter [dirs0]. *)
Definition default (dirs0 : Directions) : t := {|
  allowed_deviation := f32 3 2;       (* 1.5f *)
  allowed_angle := f32 (-1) 1;        (* -1.f *)
  dirs := dirs0;
  safe_move := f32 1 1000;            (* 1e-3f *)
  normal_z_max := f32 3 10            (* 0.3f *)
|}.

Definition set_no_deviation_filtering (c : t) : t := {|
  allowed_deviation := f32 (-1) 1;
  allowed_angle := allowed_angle c;
  dirs := dirs c;
  safe_move := safe_move c;
  normal_z_max := normal_z_max c
|}.

Definition is_deviation_filtering (c : t) : bool :=
  float_lt 0 (allowed_deviation c).

Definition set_no_angle_filtering (c : t) : t := {|
  allowed_deviation := allowed_deviation c;
  allowed_angle := f32 (-1) 1;
  dirs := dirs c;
  safe_move := safe_move c;
  normal_z_max := normal_z_max c
|}.

Definition is_angle_filtering (c : t) : bool :=
  float_lt 0 (allowed_angle c).

End RaysConfig.

(** ** struct ShapeDiameterFunction::SampleConfig *)

Module SampleConfig.

Record t : Type := mk {
  min_width : float;
  max_width : float;
  min_radius : float;
  max_radius : float;
  normal_z_max : float;
  multiplicator : float
}.

(** [SampleConfig() = default] *)
Definition default : t := {|
  min_width := f32 1 10;              (* 0.1f *)
  max_width := f32 10 1;              (* 10.f *)
  min_radius := f32 3 2;              (* 1.5f *)
  max_radius := f32 10 1;             (* 10.f *)
  normal_z_max := f32 3 10;           (* 0.3f *)
  multiplicator := f32 6 1            (* 6 *)
|}.

End SampleConfig.

(** ** struct ShapeDiameterFunction::Config *)

Module Config.

Section WithNormalType.

(** [NormalUtils::VertexNormalType] is declared in NormalUtils.hpp; the
    enumeration and its member [NelsonMaxWeighted] are parameters. *)
Context {VertexNormalType : Type}.

Record t : Type := mk {
  rays : RaysConfig.t;
  sample : SampleConfig.t;
  max_error : float;
  min_length : float;
  max_length : float;
  normal_type : VertexNormalType
}.

(** [Config() = default] *)
Definition default (dirs0 : Directions) (NelsonMaxWeighted : VertexNormalType)
  : t := {|
  rays := RaysConfig.default dirs0;
  sample := SampleConfig.default;
  max_error := f32 5 10;              (* .5f *)
  min_length := f32 5 10;             (* .5f *)
  max_length := f32 1 1;              (* 1.f *)
  normal_type := NelsonMaxWeighted
|}.

(** The members are public: [c.sample.normal_z_max = v] and
    [c.sample.min_width = lo; c.sample.max_width = hi]. *)
Definition assign_sample_normal_z_max (c : t) (v : float) : t := {|
  rays := rays c;
  sample := {|
    SampleConfig.min_width := SampleConfig.min_width (sample c);
    SampleConfig.max_width := SampleConfig.max_width (sample c);
    SampleConfig.min_radius := SampleConfig.min_radius (sample c);
    SampleConfig.max_radius := SampleConfig.max_radius (sample c);
    SampleConfig.normal_z_max := v;
    SampleConfig.multiplicator := SampleConfig.multiplicator (sample c)
  |};
  max_error := max_error c;
  min_length := min_length c;
  max_length := max_length c;
  normal_type := normal_type c
|}.

Definition assign_sample_widths (c : t) (lo hi : float) : t := {|
  rays := rays c;
  sample := {|
    SampleConfig.min_width := lo;
    SampleConfig.max_width := hi;
    SampleConfig.min_radius := SampleConfig.min_radius (sample c);
    SampleConfig.max_radius := SampleConfig.max_radius (sample c);
    SampleConfig.normal_z_max := SampleConfig.normal_z_max (sample c);
    SampleConfig.multiplicator := SampleConfig.multiplicator (sample c)
  |};
  max_error := max_error c;
  min_length := min_length c;
  max_length := max_length c;
  normal_type := normal_type c
|}.

(** The two orderings the comments of the header ask of the caller:
    [RaysConfig::normal_z_max] "must be less or equal to
    SampleConfig::normal_z_max", and the width range is a range. *)
Definition consistent (c : t) : bool :=
  float_le (RaysConfig.normal_z_max (rays c))
           (SampleConfig.normal_z_max (sample c))
  && float_lt (SampleConfig.min_width (sample c))
              (SampleConfig.max_width (sample c)).

End WithNormalType.

Arguments t : clear implicits.

End Config.

(** ** PointGrid3D (PointGrid3D.hpp) *)

Module PointGrid3D.

(** Modelled from the spec: PointGrid3D.hpp is missing.  The point grid is a
    black box over already accepted weighted points with [insert(point,
    radius)] and [query_within(point, radius)], the stored points within the
    radius of the query position. *)
Definition t : Type := list PointRadius.

Definition insert (pr : PointRadius) (g : t) : t := pr :: g.

Definition query_within (g : t) (p : Vec3f) (r : float) : list PointRadius :=
  List.filter (fun q => dist_le p (point q) r) g.

End PointGrid3D.

(** ** Poisson thinner *)

(** The radius-sum of [a] and [b] exceeds their separation distance. *)
Definition footprints_overlap (a b : PointRadius) : bool :=
  dist_lt (point a) (point b) (radius a + radius b).

(** A sample is rejected when a neighbour the grid returns for the sample's
    own radius overlaps it. *)
Definition rejected (s : PointRadius) (point_grid : PointGrid3D.t) : bool :=
  existsb (footprints_overlap s)
          (PointGrid3D.query_within point_grid (point s) (radius s)).

(** Modelled from the spec: the loop of the thinner.  Each sample in turn
    queries the grid for accepted points within its own radius; it is
    removed when one of them overlaps it, and otherwise kept and inserted
    into the grid before the next sample is tested.  The result is the
    surviving samples, in order, with the grid they leave. *)
Fixpoint thin (samples : PointRadiuses) (point_grid : PointGrid3D.t)
  : PointRadiuses * PointGrid3D.t :=
  match samples with
  | [] => ([], point_grid)
  | s :: rest =>
      if rejected s point_grid then thin rest point_grid
      else
        let '(kept, g) := thin rest (PointGrid3D.insert s point_grid) in
        (s :: kept, g)
  end.

(** Modelled from the spec: the body of poisson_sphere_from_samples is
    missing.  [samples] is an in/out parameter; the result is its content on
    return.  [grid] is passed by const reference, so the insertions go to a
    working copy. *)
Definition poisson_sphere_from_samples
    (samples : PointRadiuses) (grid : PointGrid3D.t) : PointRadiuses :=
  fst (thin samples grid).

(** ** Width estimator *)

Section WidthEstimator.

(** [AABBTreeIndirect::Tree3f] and the first-hit query on it are external. *)
Context {Tree3f : Type}.

(** [struct AABBTree] *)
Record AABBTree : Type := mkAABBTree {
  tree : Tree3f;
  triangle_normals : list Vec3f;
  vertices_indices : indexed_triangle_set
}.

(** [first_hit index origin direction]: distance and triangle of the first
    hit along the ray, if any. *)
Variable first_hit : AABBTree -> Vec3f -> Vec3f -> option (float * nat).

(** [rotation_to target v]: [v] under the rotation that maps the pole axis
    of the direction set onto [target]. *)
Variable rotation_to : Vec3f -> Vec3f -> Vec3f.

(** The angle between two vectors, and the constant pi, as floats. *)
Variable angle_between : Vec3f -> Vec3f -> float.
Variable pi : float.

(** The width returned when no hit remains. *)
Variable undetermined : float.

(** The float operations of the statistics. *)
Context {arith : FloatArith}.

(** Weighted mean and variance of hit distances; a hit is a distance with the
    weight of the ray that found it.  The sums are accumulated from zero in
    the order of the hits, with the float operations.  For hits of total
    weight zero the mean is the quotient by zero, which [fdiv] leaves
    open. *)
Definition sum_weights (hs : list (float * float)) : float :=
  fold_left (fun acc h => fadd acc (snd h)) hs 0.

Definition weighted_sum (hs : list (float * float)) : float :=
  fold_left (fun acc h => fadd acc (fmul (fst h) (snd h))) hs 0.

Definition weighted_average (hs : list (float * float)) : float :=
  fdiv (weighted_sum hs) (sum_weights hs).

Definition weighted_variance (hs : list (float * float)) : float :=
  let mean := weighted_average hs in
  fdiv
    (fold_left
       (fun acc h =>
          fadd acc (fmul (snd h)
                         (fmul (fsub (fst h) mean) (fsub (fst h) mean))))
       hs 0)
    (sum_weights hs).

(** Modelled from the spec: steps 2 and 3 of the estimator for one weighted
    direction.  The ray starts at [point + safe_move * normal] and runs along
    the direction rotated onto the inverse normal; with angle filtering on,
    a hit whose triangle normal makes an angle below [pi - allowed_angle]
    with the ray is dropped. *)
Definition cast_ray (point normal : Vec3f) (tree0 : AABBTree)
    (config : RaysConfig.t) (d : Direction) : option (float * float) :=
  let origin := vadd point (vscale (RaysConfig.safe_move config) normal) in
  let ray := rotation_to (vneg normal) (dir d) in
  match first_hit tree0 origin ray with
  | None => None
  | Some (distance, triangle) =>
      let grazing :=
        match triangle_normals tree0 !! triangle with
        | Some n =>
            float_lt (angle_between ray n)
                     (pi - RaysConfig.allowed_angle config)
        | None => false
        end in
      if RaysConfig.is_angle_filtering config && grazing then None
      else Some (distance, weight d)
  end.

Definition collect_hits (point normal : Vec3f) (tree0 : AABBTree)
    (config : RaysConfig.t) : list (float * float) :=
  omap (cast_ray point normal tree0 config) (RaysConfig.dirs config).

(** Modelled from the spec: step 4.  With deviation filtering on and at
    least two hits, a hit farther than [allowed_deviation] standard
    deviations from the weighted mean is dropped.  The comparison is made on
    squares, with the float operations; the properties below do not depend
    on which hits this test drops. *)
Definition deviation_filter (config : RaysConfig.t)
    (hs : list (float * float)) : list (float * float) :=
  if RaysConfig.is_deviation_filtering config && (2 <=? length hs)%nat then
    let mean := weighted_average hs in
    let k := RaysConfig.allowed_deviation config in
    let bound := fmul (fmul k k) (weighted_variance hs) in
    List.filter
      (fun h =>
         float_le (fmul (fsub (fst h) mean) (fsub (fst h) mean)) bound)
      hs
  else hs.

Definition surviving_hits (point normal : Vec3f) (tree0 : AABBTree)
    (config : RaysConfig.t) : list (float * float) :=
  deviation_filter config (collect_hits point normal tree0 config).

(** Modelled from the spec: the body of calc_width is missing.  Step 5: the
    weighted average of the hits that remain, or the sentinel. *)
Definition calc_width (point normal : Vec3f) (tree0 : AABBTree)
    (config : RaysConfig.t) : float :=
  match surviving_hits point normal tree0 config with
  | [] => undetermined
  | h :: hs => weighted_average (h :: hs)
  end.

(** Modelled from the spec: one iteration of the parallel loop of
    calc_widths; the iteration for index [i] writes [widths[i]] and nothing
    else. *)
Definition calc_widths_iteration (points normals : list Vec3f)
    (tree0 : AABBTree) (config : RaysConfig.t)
    (widths : list float) (i : nat) : list float :=
  match points !! i, normals !! i with
  | Some p, Some n => <[i := calc_width p n tree0 config]> widths
  | _, _ => widths
  end.

(** Modelled from the spec: the loop, with the iterations taking effect in
    the order [order], on a vector of the size of [points]. *)
Definition calc_widths_in_order (order : list nat)
    (points normals : list Vec3f) (tree0 : AABBTree)
    (config : RaysConfig.t) : list float :=
  fold_left (calc_widths_iteration points normals tree0 config) order
            (replicate (length points) 0).

(** Modelled from the spec: the body of calc_widths is missing.  The loop
    runs over all indices of [points]. *)
Definition calc_widths (points normals : list Vec3f) (tree0 : AABBTree)
    (config : RaysConfig.t) : list float :=
  calc_widths_in_order (seq 0 (length points)) points normals tree0 config.

End WidthEstimator.

(** ** Support-point generator *)

(** Modelled from the spec: the vertex width is mapped linearly from
    [min_width, max_width] to [min_radius, max_radius], clamped at the
    ends. *)
Definition width_to_radius (cfg : SampleConfig.t) (width : float) : float :=
  if float_le width (SampleConfig.min_width cfg) then
    SampleConfig.min_radius cfg
  else if float_le (SampleConfig.max_width cfg) width then
    SampleConfig.max_radius cfg
  else
    SampleConfig.min_radius cfg
    + (width - SampleConfig.min_width cfg)
      * (SampleConfig.max_radius cfg - SampleConfig.min_radius cfg)
      / (SampleConfig.max_width cfg - SampleConfig.min_width cfg).

(** The words of the spec, for comparison: the linear map, then a clamp of
    its value to the radius range. *)
Definition linear_width_to_radius (cfg : SampleConfig.t) (width : float)
  : float :=
  SampleConfig.min_radius cfg
  + (width - SampleConfig.min_width cfg)
    * (SampleConfig.max_radius cfg - SampleConfig.min_radius cfg)
    / (SampleConfig.max_width cfg - SampleConfig.min_width cfg).

Definition clamp (lo hi x : float) : float := Qmax lo (Qmin hi x).

(** A normal is within [normal_z_max] of the up axis when its z component is
    above it ([normal_z_max] is the cosine of the minimal angle to z). *)
Definition is_top_facing (cfg : SampleConfig.t) (normal : Vec3f) : bool :=
  float_lt (SampleConfig.normal_z_max cfg) (vz normal).

Section SupportPoints.

(** [std::mt19937], the vertex normals (NormalUtils.hpp) and the random
    placement of samples around a vertex are external. *)
Context {mt19937 : Type}.
Variable vertex_normal : indexed_triangle_set -> nat -> Vec3f.

(** [place_samples its v density g]: random surface positions around vertex
    [v], [density] of them per unit area, and the generator afterwards. *)
Variable place_samples :
  indexed_triangle_set -> nat -> float -> mt19937 -> list Vec3f * mt19937.

(** Modelled from the spec: the loop of the generator.  For each vertex:
    the mapped radius of its width; a vertex whose normal is within
    [normal_z_max] of up is skipped; [multiplicator] samples per unit area
    divided by the squared radius are placed, each with the radius of the
    vertex.  The generator is threaded through. *)
Fixpoint generate_for_vertices (its : indexed_triangle_set)
    (widths : list float) (cfg : SampleConfig.t)
    (vs : list nat) (random_generator : mt19937)
  : PointRadiuses * mt19937 :=
  match vs with
  | [] => ([], random_generator)
  | v :: rest =>
      match widths !! v with
      | None => generate_for_vertices its widths cfg rest random_generator
      | Some width =>
          if is_top_facing cfg (vertex_normal its v) then
            generate_for_vertices its widths cfg rest random_generator
          else
            let r := width_to_radius cfg width in
            let density := SampleConfig.multiplicator cfg / (r * r) in
            let '(ps, g1) := place_samples its v density random_generator in
            let '(out, g2) := generate_for_vertices its widths cfg rest g1 in
            (List.map (fun p => mkPointRadius p r) ps ++ out, g2)
      end
  end.

(** Modelled from the spec: the body of generate_support_points is missing.
    The loop runs over all vertices of the mesh. *)
Definition generate_support_points (its : indexed_triangle_set)
    (widths : list float) (cfg : SampleConfig.t) (random_generator : mt19937)
  : PointRadiuses * mt19937 :=
  generate_for_vertices its widths cfg
    (seq 0 (length (vertices its))) random_generator.

End SupportPoints.

(** ** Direction sampler, over the real numbers *)

Module FibonacciSphere.

Local Open Scope R_scope.

Record Vec3 : Type := mkVec3 { x : R; y : R; z : R }.

Record Direction : Type := mkDirection { dir : Vec3; weight : R }.
Definition Directions : Type := list Direction.

Definition dot (a b : Vec3) : R := x a * x b + y a * y b + z a * z b.

(** The pole axis of the direction set. *)
Definition pole : Vec3 := mkVec3 0 0 1.

(** The polar angle of a unit vector: its angle to the pole axis. *)
Definition polar_angle (v : Vec3) : R := acos (dot v pole).

Definition Rleb (a b : R) : bool := if Rle_dec a b then true else false.

Section Spiral.

(** The spiral is given by the polar angle and the azimuth of point [i] of
    [count]; the spec does not fix the two formulas beyond the golden-ratio
    spacing, so they are parameters. *)
Variables polar azimuth : nat -> nat -> R.

Definition spiral_point (count i : nat) : Vec3 :=
  mkVec3 (sin (polar count i) * cos (azimuth count i))
         (sin (polar count i) * sin (azimuth count i))
         (cos (polar count i)).

(** The half-sphere around the pole, and the cone of [angle] degrees. *)
Definition on_half_sphere (count i : nat) : bool :=
  Rleb 0 (polar count i) && Rleb (polar count i) (PI / 2).

Definition in_cone (angle : R) (count i : nat) : bool :=
  Rleb (polar count i) (angle * PI / 180).

(** Modelled from the spec: the body of create_fibonacci_sphere_samples is
    missing.  [count_samples] points of the spiral, restricted to the
    half-sphere around the pole, without those whose polar angle exceeds the
    cone angle; each with its cosine to the pole axis as weight. *)
Definition create_fibonacci_sphere_samples (angle : R) (count_samples : nat)
  : Directions :=
  List.map
    (fun i =>
       let v := spiral_point count_samples i in
       mkDirection v (dot v pole))
    (List.filter
       (fun i => on_half_sphere count_samples i
                 && in_cone angle count_samples i)
       (seq 0 count_samples)).

End Spiral.

End FibonacciSphere.

(** * Properties *)

(** ** Comparison lemmas *)

Lemma float_lt_iff (x y : float) : float_lt x y = true <-> (x < y)%Q.
Proof.
  unfold float_lt. rewrite negb_true_iff.
  destruct (Qle_bool y x) eqn:E.
  - apply Qle_bool_iff in E. split; [discriminate | intros H; lra].
  - split; [intros _ | reflexivity].
    destruct (Qlt_le_dec x y) as [H | H]; [exact H |].
    apply Qle_bool_iff in H. congruence.
Qed.

Lemma float_le_iff (x y : float) : float_le x y = true <-> (x <= y)%Q.
Proof. apply Qle_bool_iff. Qed.

Lemma float_lt_false_iff (x y : float) : float_lt x y = false <-> (y <= x)%Q.
Proof.
  unfold float_lt. rewrite negb_false_iff. apply Qle_bool_iff.
Qed.

Lemma float_le_false_iff (x y : float) : float_le x y = false <-> (y < x)%Q.
Proof.
  rewrite <- float_lt_iff. unfold float_lt, float_le.
  destruct (Qle_bool x y); simpl; split; congruence.
Qed.

(** ** Literals *)

Lemma f32_values :
  f32 3 2 = 3 # 2 /\ f32 (-1) 1 = -1 # 1 /\ f32 10 1 = 10 # 1
  /\ f32 6 1 = 6 # 1 /\ f32 5 10 = 1 # 2 /\ f32 1 1 = 1 # 1
  /\ f32 3 10 = 5033165 # 16777216
  /\ f32 1 10 = 13421773 # 134217728
  /\ f32 1 1000 = 8589935 # 8589934592.
Proof. vm_compute. repeat split. Qed.

(** ** Configuration records *)

(** C9: [is_deviation_filtering] holds exactly when [allowed_deviation > 0]
    and [is_angle_filtering] exactly when [allowed_angle > 0]; each is false
    right after the matching [set_no_..._filtering]; a value of exactly zero
    disables the filter; the default configuration filters by deviation
    (1.5) and not by angle (-1). *)
Theorem RaysConfig_filtering_predicates :
  (forall c, RaysConfig.is_deviation_filtering c = true
             <-> 0 < RaysConfig.allowed_deviation c)
  /\ (forall c, RaysConfig.is_angle_filtering c = true
                <-> 0 < RaysConfig.allowed_angle c)
  /\ (forall c, RaysConfig.is_deviation_filtering
                  (RaysConfig.set_no_deviation_filtering c) = false)
  /\ (forall c, RaysConfig.is_angle_filtering
                  (RaysConfig.set_no_angle_filtering c) = false)
  /\ (forall c, RaysConfig.allowed_deviation c == 0 ->
                RaysConfig.is_deviation_filtering c = false)
  /\ (forall c, RaysConfig.allowed_angle c == 0 ->
                RaysConfig.is_angle_filtering c = false)
  /\ (forall dirs0,
        RaysConfig.allowed_deviation (RaysConfig.default dirs0) == 3 # 2
        /\ RaysConfig.is_deviation_filtering (RaysConfig.default dirs0) = true
        /\ RaysConfig.allowed_angle (RaysConfig.default dirs0) == - (1)
        /\ RaysConfig.is_angle_filtering (RaysConfig.default dirs0) = false).
Proof.
  repeat apply conj.
  - intros c. apply float_lt_iff.
  - intros c. apply float_lt_iff.
  - intros c. reflexivity.
  - intros c. reflexivity.
  - intros c H. apply float_lt_false_iff. rewrite H. apply Qle_refl.
  - intros c H. apply float_lt_false_iff. rewrite H. apply Qle_refl.
  - intros dirs0. repeat apply conj; reflexivity.
Qed.

Lemma RaysConfig_filtering_predicates_witness :
  RaysConfig.is_deviation_filtering (RaysConfig.mk 0 0 [] 0 0) = false
  /\ RaysConfig.is_angle_filtering (RaysConfig.mk 0 0 [] 0 0) = false.
Proof.
  destruct RaysConfig_filtering_predicates as (_ & _ & _ & _ & Hd & Ha & _).
  split; [apply Hd | apply Ha]; reflexivity.
Defined.

(** C10: the default configuration satisfies the orderings its stages
    assume: rays.normal_z_max (0.3) <= sample.normal_z_max (0.3),
    min_width (0.1) < max_width (10), min_radius (1.5) < max_radius (10) and
    min_length (0.5) <= max_length (1). *)
Theorem Config_default_consistent :
  forall (VertexNormalType : Type) (dirs0 : Directions)
         (NelsonMaxWeighted : VertexNormalType),
    let c := Config.default dirs0 NelsonMaxWeighted in
    let r := Config.rays c in
    let s := Config.sample c in
    (RaysConfig.normal_z_max r = f32 3 10
     /\ SampleConfig.normal_z_max s = f32 3 10
     /\ RaysConfig.normal_z_max r <= SampleConfig.normal_z_max s)
    /\ (SampleConfig.min_width s = f32 1 10
        /\ SampleConfig.max_width s == 10
        /\ SampleConfig.min_width s < SampleConfig.max_width s)
    /\ (SampleConfig.min_radius s == 3 # 2
        /\ SampleConfig.max_radius s == 10
        /\ SampleConfig.min_radius s < SampleConfig.max_radius s)
    /\ (Config.min_length c == 1 # 2
        /\ Config.max_length c == 1
        /\ Config.min_length c <= Config.max_length c)
    /\ Config.consistent c = true.
Proof.
  intros VertexNormalType dirs0 NelsonMaxWeighted. cbv zeta.
  repeat apply conj; try reflexivity; vm_compute; congruence.
Qed.

(** C4, as stated, fails: a configuration whose sample.normal_z_max (0.1) is
    below rays.normal_z_max (0.3), and one whose min_width (10) is not below
    max_width (0.1), are constructed like any other. *)
Lemma Config_construction_counterexample :
  Config.consistent
    (Config.assign_sample_normal_z_max (Config.default [] tt) (f32 1 10))
  = false
  /\ Config.consistent
       (Config.assign_sample_widths (Config.default [] tt)
          (f32 10 1) (f32 1 10))
     = false.
Proof. split; reflexivity. Qed.

(** C4, amended: construction performs no validation.  Whatever the
    configuration, assigning a sample.normal_z_max below rays.normal_z_max,
    or a width range with max_width <= min_width, yields a configuration
    that violates the ordering; a configuration is consistent exactly when
    both orderings hold, which is left to the caller. *)
Theorem Config_construction_unchecked :
  forall (VertexNormalType : Type) (c : Config.t VertexNormalType),
    (forall v, v < RaysConfig.normal_z_max (Config.rays c) ->
               Config.consistent (Config.assign_sample_normal_z_max c v)
               = false)
    /\ (forall lo hi, hi <= lo ->
                      Config.consistent (Config.assign_sample_widths c lo hi)
                      = false)
    /\ (Config.consistent c = true <->
        RaysConfig.normal_z_max (Config.rays c)
        <= SampleConfig.normal_z_max (Config.sample c)
        /\ SampleConfig.min_width (Config.sample c)
           < SampleConfig.max_width (Config.sample c)).
Proof.
  intros VertexNormalType c. repeat apply conj.
  - intros v Hv. unfold Config.consistent; simpl.
    apply float_le_false_iff in Hv. rewrite Hv. reflexivity.
  - intros lo hi Hle. unfold Config.consistent; simpl.
    apply float_lt_false_iff in Hle. rewrite Hle. apply andb_false_r.
  - unfold Config.consistent. rewrite andb_true_iff.
    rewrite float_le_iff, float_lt_iff. tauto.
  - unfold Config.consistent. rewrite andb_true_iff.
    rewrite float_le_iff, float_lt_iff. tauto.
Qed.

Lemma Config_construction_unchecked_witness :
  Config.consistent
    (Config.assign_sample_normal_z_max (Config.default [] tt) (1 # 10))
  = false
  /\ Config.consistent
       (Config.assign_sample_widths (Config.default [] tt) 10 (1 # 10))
     = false.
Proof.
  destruct (Config_construction_unchecked unit (Config.default [] tt))
    as (Hz & Hw & _).
  split; [apply Hz | apply Hw]; vm_compute; congruence.
Defined.

(** ** Distances on squares *)

(** The two tests on squares decide the comparisons with the distance [d]
    itself, for any [d >= 0] whose square is the squared distance. *)
Lemma dist_le_sound (a b : Vec3f) (r d : float) :
  0 <= d -> d * d == dist2 a b -> (dist_le a b r = true <-> d <= r).
Proof.
  intros Hd Hsq. unfold dist_le.
  rewrite andb_true_iff, !float_le_iff, <- Hsq.
  split.
  - intros [Hr Hle].
    destruct (Qlt_le_dec r d) as [Hlt | Hge]; [nra | exact Hge].
  - intros Hle. split; nra.
Qed.

Lemma dist_lt_sound (a b : Vec3f) (r d : float) :
  0 <= d -> d * d == dist2 a b -> (dist_lt a b r = true <-> d < r).
Proof.
  intros Hd Hsq. unfold dist_lt.
  rewrite andb_true_iff, !float_lt_iff, <- Hsq.
  split.
  - intros [Hr Hlt]. destruct (Qlt_le_dec d r) as [H | H]; [exact H | nra].
  - intros Hlt. split; nra.
Qed.

Lemma Qsquare_nonneg (t : Q) : 0 <= t * t.
Proof. nra. Qed.

Lemma dist2_nonneg (a b : Vec3f) : 0 <= dist2 a b.
Proof.
  cbv [dist2 vdot vsub vx vy vz].
  pose proof (Qsquare_nonneg (vx a - vx b)).
  pose proof (Qsquare_nonneg (vy a - vy b)).
  pose proof (Qsquare_nonneg (vz a - vz b)).
  destruct a, b; simpl in *. lra.
Qed.

(** ** Subsequences *)

Lemma sublist_List_filter {A : Type} (f : A -> bool) (l : list A) :
  sublist (List.filter f l) l.
Proof.
  induction l as [| a l IH]; simpl; [constructor |].
  destruct (f a); [apply sublist_skip | apply sublist_cons]; exact IH.
Qed.

Lemma sublist_omap_impl {A B : Type} (f g : A -> option B) (l : list A) :
  (forall a b, In a l -> f a = Some b -> g a = Some b) ->
  sublist (omap f l) (omap g l).
Proof.
  induction l as [| a l IH]; intros Himp; simpl; [constructor |].
  assert (IH' : sublist (omap f l) (omap g l)).
  { apply IH. intros a' b Ha'. apply Himp. right. exact Ha'. }
  destruct (f a) as [b |] eqn:Hf.
  - rewrite (Himp a b (or_introl eq_refl) Hf). apply sublist_skip, IH'.
  - destruct (g a); [apply sublist_cons |]; exact IH'.
Qed.

(** ** Width estimator *)

Lemma deviation_filter_sublist {arith : FloatArith} (config : RaysConfig.t)
    (hs : list (float * float)) :
  sublist (deviation_filter config hs) hs.
Proof.
  unfold deviation_filter.
  destruct (RaysConfig.is_deviation_filtering config && _);
    [apply sublist_List_filter | reflexivity].
Qed.

Section WidthEstimatorProperties.

Context {Tree3f : Type}.
Variable first_hit : @AABBTree Tree3f -> Vec3f -> Vec3f -> option (float * nat).
Variable rotation_to : Vec3f -> Vec3f -> Vec3f.
Variable angle_between : Vec3f -> Vec3f -> float.
Variable pi : float.
Variable undetermined : float.
Context {arith : FloatArith}.

Lemma cast_ray_hit (point normal : Vec3f) (tree0 : AABBTree)
    (config : RaysConfig.t) (d : Direction) (h : float * float) :
  cast_ray first_hit rotation_to angle_between pi point normal tree0 config d
  = Some h ->
  exists triangle,
    first_hit tree0
      (vadd point (vscale (RaysConfig.safe_move config) normal))
      (rotation_to (vneg normal) (dir d))
    = Some (fst h, triangle)
    /\ snd h = weight d.
Proof.
  unfold cast_ray. intros H.
  destruct (first_hit tree0 _ _) as [[distance triangle] |];
    [| discriminate].
  destruct (RaysConfig.is_angle_filtering config && _); [discriminate |].
  injection H as <-. exists triangle. split; reflexivity.
Qed.

Lemma collect_hits_none_left (point normal : Vec3f) (tree0 : AABBTree)
    (config : RaysConfig.t) :
  (forall d, In d (RaysConfig.dirs config) ->
     cast_ray first_hit rotation_to angle_between pi point normal tree0
              config d = None) ->
  collect_hits first_hit rotation_to angle_between pi point normal tree0
               config = [].
Proof.
  unfold collect_hits. induction (RaysConfig.dirs config) as [| d ds IH];
    intros Hnone; [reflexivity |].
  simpl. rewrite (Hnone d) by (left; reflexivity).
  apply IH. intros d' Hd'. apply Hnone. right. exact Hd'.
Qed.

Lemma collect_hits_no_hit (point normal : Vec3f) (tree0 : AABBTree)
    (config : RaysConfig.t) :
  (forall d, In d (RaysConfig.dirs config) ->
     first_hit tree0
       (vadd point (vscale (RaysConfig.safe_move config) normal))
       (rotation_to (vneg normal) (dir d))
     = None) ->
  collect_hits first_hit rotation_to angle_between pi point normal tree0
               config = [].
Proof.
  intros Hmiss. apply collect_hits_none_left. intros d Hd.
  unfold cast_ray. rewrite (Hmiss d Hd). reflexivity.
Qed.

(** With exact operations the accumulated sums are the sums of the
    rationals. *)
Lemma sum_weights_exact (hs : list (float * float)) :
  rounding_free arith ->
  sum_weights hs == fold_right Qplus 0 (List.map snd hs).
Proof.
  intros (Hadd & _). unfold sum_weights.
  assert (H : forall acc acc' : float, acc == acc' ->
            fold_left (fun a h => fadd a (snd h)) hs acc
            == acc' + fold_right Qplus 0 (List.map snd hs)).
  { induction hs as [| h hs IH]; intros acc acc' Hacc;
      cbn [fold_left fold_right List.map].
    - lra.
    - specialize (IH (fadd acc (snd h)) (acc' + snd h)).
      set (rest := fold_right Qplus 0 (List.map snd hs)) in *.
      pose proof (Hadd acc (snd h)) as Hstep.
      assert (E : fadd acc (snd h) == acc' + snd h) by lra.
      specialize (IH E). lra. }
  specialize (H 0 0 (Qeq_refl 0)). lra.
Qed.

Lemma weighted_sum_exact (hs : list (float * float)) :
  rounding_free arith ->
  weighted_sum hs
  == fold_right Qplus 0 (List.map (fun h => fst h * snd h) hs).
Proof.
  intros (Hadd & _ & Hmul & _). unfold weighted_sum.
  assert (H : forall acc acc' : float, acc == acc' ->
            fold_left (fun a h => fadd a (fmul (fst h) (snd h))) hs acc
            == acc' + fold_right Qplus 0
                        (List.map (fun h => fst h * snd h) hs)).
  { induction hs as [| h hs IH]; intros acc acc' Hacc;
      cbn [fold_left fold_right List.map].
    - lra.
    - specialize (IH (fadd acc (fmul (fst h) (snd h)))
                     (acc' + fst h * snd h)).
      set (rest := fold_right Qplus 0
                     (List.map (fun h => fst h * snd h) hs)) in *.
      pose proof (Hadd acc (fmul (fst h) (snd h))) as Hstep.
      pose proof (Hmul (fst h) (snd h)) as Hprod.
      set (p := fst h * snd h) in *.
      assert (E : fadd acc (fmul (fst h) (snd h)) == acc' + p) by lra.
      eapply Qeq_trans; [exact (IH E) |]. unfold p, float. ring. }
  specialize (H 0 0 (Qeq_refl 0)). lra.
Qed.


(** ** Widths for all vertices *)

Local Abbreviation iteration :=
  (calc_widths_iteration first_hit rotation_to angle_between pi undetermined).

Lemma calc_widths_fold_length (points normals : list Vec3f)
    (tree0 : AABBTree) (config : RaysConfig.t) (order : list nat)
    (widths : list float) :
  length (fold_left (iteration points normals tree0 config) order widths)
  = length widths.
Proof.
  revert widths. induction order as [| i order IH]; intros widths; simpl.
  - reflexivity.
  - rewrite IH. unfold calc_widths_iteration.
    destruct (points !! i), (normals !! i); try reflexivity.
    apply length_insert.
Qed.

Lemma calc_widths_fold_untouched (points normals : list Vec3f)
    (tree0 : AABBTree) (config : RaysConfig.t) (order : list nat)
    (widths : list float) (i : nat) :
  ~ In i order ->
  fold_left (iteration points normals tree0 config) order widths !! i
  = widths !! i.
Proof.
  revert widths. induction order as [| j order IH]; intros widths Hni; simpl.
  - reflexivity.
  - rewrite IH by (intros H; apply Hni; right; exact H).
    unfold calc_widths_iteration.
    destruct (points !! j), (normals !! j); try reflexivity.
    apply list_lookup_insert_ne. intros ->. apply Hni. left. reflexivity.
Qed.

Lemma calc_widths_fold_written (points normals : list Vec3f)
    (tree0 : AABBTree) (config : RaysConfig.t) (order : list nat)
    (widths : list float) (i : nat) (p n : Vec3f) :
  In i order -> (i < length widths)%nat ->
  points !! i = Some p -> normals !! i = Some n ->
  fold_left (iteration points normals tree0 config) order widths !! i
  = Some (calc_width first_hit rotation_to angle_between pi undetermined
                     p n tree0 config).
Proof.
  intros Hin Hlt Hp Hn. revert widths Hlt Hin.
  induction order as [| j order IH]; intros widths Hlt Hin; simpl.
  - contradiction.
  - destruct (in_dec Nat.eq_dec i order) as [Hlater | Hlast].
    + apply IH; [| exact Hlater].
      unfold calc_widths_iteration.
      destruct (points !! j), (normals !! j); try exact Hlt.
      rewrite length_insert. exact Hlt.
    + destruct Hin as [-> | Hin]; [| contradiction].
      rewrite calc_widths_fold_untouched by exact Hlast.
      unfold calc_widths_iteration. rewrite Hp, Hn.
      apply list_lookup_insert_eq. exact Hlt.
Qed.

(** C3: for point and normal sequences of equal length, calc_widths returns
    a sequence of that length whose element [i] is calc_width of point [i]
    and normal [i], and the result is the same in whatever order the
    iterations of the loop take effect. *)
Theorem calc_widths_pointwise :
  forall (points normals : list Vec3f) (tree0 : AABBTree)
         (config : RaysConfig.t),
    length points = length normals ->
    let widths :=
      calc_widths first_hit rotation_to angle_between pi undetermined
                  points normals tree0 config in
    length widths = length points
    /\ (forall i p n, points !! i = Some p -> normals !! i = Some n ->
          widths !! i
          = Some (calc_width first_hit rotation_to angle_between pi
                             undetermined p n tree0 config))
    /\ (forall order, Permutation order (seq 0 (length points)) ->
          calc_widths_in_order first_hit rotation_to angle_between pi
                               undetermined order points normals tree0
                               config
          = widths).
Proof.
  intros points normals tree0 config Hlen widths.
  assert (Hany : forall order, Permutation order (seq 0 (length points)) ->
            forall i p n, points !! i = Some p -> normals !! i = Some n ->
              calc_widths_in_order first_hit rotation_to angle_between pi
                undetermined order points normals tree0 config !! i
              = Some (calc_width first_hit rotation_to angle_between pi
                                 undetermined p n tree0 config)).
  { intros order Hperm i p n Hp Hn. unfold calc_widths_in_order.
    pose proof (lookup_lt_Some _ _ _ Hp) as Hi.
    apply calc_widths_fold_written; auto.
    - eapply Permutation_in; [symmetry; exact Hperm |].
      apply in_seq. lia.
    - rewrite length_replicate. exact Hi. }
  assert (Hlength : forall order,
            length (calc_widths_in_order first_hit rotation_to angle_between
                      pi undetermined order points normals tree0 config)
            = length points).
  { intros order. unfold calc_widths_in_order.
    rewrite calc_widths_fold_length. apply length_replicate. }
  repeat apply conj.
  - apply Hlength.
  - apply Hany. reflexivity.
  - intros order Hperm. apply list_eq. intros i.
    destruct (points !! i) as [p |] eqn:Hp.
    + destruct (normals !! i) as [n |] eqn:Hn.
      * unfold widths, calc_widths.
        rewrite (Hany order Hperm i p n Hp Hn).
        symmetry. apply Hany; auto.
      * apply lookup_lt_Some in Hp. apply lookup_ge_None in Hn. lia.
    + apply lookup_ge_None in Hp.
      rewrite (proj2 (lookup_ge_None _ i)) by (rewrite Hlength; exact Hp).
      symmetry. apply lookup_ge_None. unfold widths, calc_widths.
      rewrite Hlength. exact Hp.
Qed.

End WidthEstimatorProperties.

Lemma exact_arithmetic_rounding_free : rounding_free exact_arithmetic.
Proof. repeat split; intros; apply Qeq_refl. Qed.


Lemma calc_widths_pointwise_witness :
  length
    (calc_widths (Tree3f := unit) (fun _ _ _ => Some (2, 0%nat))
       (fun _ v => v) (fun _ _ => 0) 3 (-1 # 1)
       [mkVec3f 0 0 0; mkVec3f 1 0 0] [mkVec3f 0 0 1; mkVec3f 0 0 1]
       (mkAABBTree tt [] (mkIts [] []))
       (RaysConfig.default [mkDirection (mkVec3f 0 0 1) 1]))
  = 2%nat.
Proof.
  apply (calc_widths_pointwise (Tree3f := unit)
           (fun _ _ _ => Some (2, 0%nat)) (fun _ v => v) (fun _ _ => 0) 3
           (-1 # 1) [mkVec3f 0 0 0; mkVec3f 1 0 0]
           [mkVec3f 0 0 1; mkVec3f 0 0 1]).
  reflexivity.
Defined.

(** ** Support-point generator *)

(** For a radius range that is a range, the mapped radius lies in it. *)
Lemma width_to_radius_range (cfg : SampleConfig.t) (width : float) :
  SampleConfig.min_radius cfg <= SampleConfig.max_radius cfg ->
  SampleConfig.min_radius cfg <= width_to_radius cfg width
  /\ width_to_radius cfg width <= SampleConfig.max_radius cfg.
Proof.
  intros Hr. unfold width_to_radius.
  destruct (float_le width _) eqn:Hlo; [split; lra |].
  destruct (float_le _ width) eqn:Hhi; [split; lra |].
  apply float_le_false_iff in Hlo, Hhi.
  set (t := (width - SampleConfig.min_width cfg)
            * (SampleConfig.max_radius cfg - SampleConfig.min_radius cfg)
            / (SampleConfig.max_width cfg - SampleConfig.min_width cfg)).
  assert (Ht : 0 <= t
               /\ t <= SampleConfig.max_radius cfg
                       - SampleConfig.min_radius cfg).
  { unfold t. split.
    - apply Qle_shift_div_l; [lra | nra].
    - apply Qle_shift_div_r; [lra | nra]. }
  lra.
Qed.

(** For a width range and a radius range that are ranges, the branches of
    [width_to_radius] give the linear map of the width, clamped to the
    radius range. *)
Lemma width_to_radius_clamp (cfg : SampleConfig.t) (width : float) :
  SampleConfig.min_width cfg < SampleConfig.max_width cfg ->
  SampleConfig.min_radius cfg <= SampleConfig.max_radius cfg ->
  width_to_radius cfg width
  == clamp (SampleConfig.min_radius cfg) (SampleConfig.max_radius cfg)
           (linear_width_to_radius cfg width).
Proof.
  intros Hw Hr. unfold width_to_radius, clamp, linear_width_to_radius.
  set (t := (width - SampleConfig.min_width cfg)
            * (SampleConfig.max_radius cfg - SampleConfig.min_radius cfg)
            / (SampleConfig.max_width cfg - SampleConfig.min_width cfg)).
  destruct (float_le width _) eqn:Hlo.
  - apply float_le_iff in Hlo.
    assert (Ht : t <= 0).
    { unfold t. apply Qle_shift_div_r; [lra | nra]. }
    rewrite Q.max_l; [reflexivity |].
    eapply Qle_trans; [apply Q.le_min_r | lra].
  - destruct (float_le _ width) eqn:Hhi.
    + apply float_le_iff in Hhi.
      assert (Ht : SampleConfig.max_radius cfg - SampleConfig.min_radius cfg
                   <= t).
      { unfold t. apply Qle_shift_div_l; [lra | nra]. }
      rewrite Q.min_l by lra. rewrite Q.max_r by lra. reflexivity.
    + apply float_le_false_iff in Hlo, Hhi.
      assert (Ht : 0 <= t
                   /\ t <= SampleConfig.max_radius cfg
                           - SampleConfig.min_radius cfg).
      { unfold t. split.
        - apply Qle_shift_div_l; [lra | nra].
        - apply Qle_shift_div_r; [lra | nra]. }
      rewrite Q.min_r by lra. rewrite Q.max_r by lra. reflexivity.
Qed.

Section SupportPointsProperties.

Context {mt19937 : Type}.
Variable vertex_normal : indexed_triangle_set -> nat -> Vec3f.
Variable place_samples :
  indexed_triangle_set -> nat -> float -> mt19937 -> list Vec3f * mt19937.

Lemma generate_for_vertices_origin (its : indexed_triangle_set)
    (widths : list float) (cfg : SampleConfig.t) (vs : list nat)
    (g : mt19937) (pr : PointRadius) :
  In pr (fst (generate_for_vertices vertex_normal place_samples
                its widths cfg vs g)) ->
  exists v width g0,
    In v vs
    /\ widths !! v = Some width
    /\ is_top_facing cfg (vertex_normal its v) = false
    /\ radius pr = width_to_radius cfg width
    /\ In (point pr)
          (fst (place_samples its v
                  (SampleConfig.multiplicator cfg
                   / (width_to_radius cfg width * width_to_radius cfg width))
                  g0)).
Proof.
  revert g. induction vs as [| v rest IH]; intros g Hin; simpl in Hin.
  - contradiction.
  - assert (Hrest : forall g1,
              In pr (fst (generate_for_vertices vertex_normal place_samples
                            its widths cfg rest g1)) ->
              exists v0 width g0,
                In v0 (v :: rest)
                /\ widths !! v0 = Some width
                /\ is_top_facing cfg (vertex_normal its v0) = false
                /\ radius pr = width_to_radius cfg width
                /\ In (point pr)
                      (fst (place_samples its v0
                              (SampleConfig.multiplicator cfg
                               / (width_to_radius cfg width
                                  * width_to_radius cfg width))
                              g0))).
    { intros g1 H. destruct (IH g1 H) as (v0 & width & g0 & Hv0 & Hrest).
      exists v0, width, g0. split; [right; exact Hv0 | exact Hrest]. }
    destruct (widths !! v) as [width |] eqn:Hw; [| eauto].
    destruct (is_top_facing cfg (vertex_normal its v)) eqn:Htop; [eauto |].
    destruct (place_samples its v _ g) as [ps g1] eqn:Hps.
    destruct (generate_for_vertices _ _ its widths cfg rest g1)
      as [out g2] eqn:Hout.
    simpl in Hin. apply in_app_or in Hin as [Hin | Hin].
    + apply in_map_iff in Hin as (p & <- & Hp).
      exists v, width, g. simpl. rewrite Hps.
      repeat split; auto.
    + apply (Hrest g1). rewrite Hout. exact Hin.
Qed.

(** X14: top sides get no support.  A mesh whose vertex normals all have a
    z component above normal_z_max yields no support point, whatever the
    widths and the generator. *)
Lemma generate_support_points_top_facing (its : indexed_triangle_set)
    (widths : list float) (cfg : SampleConfig.t) (g : mt19937) :
  (forall v, (v < length (vertices its))%nat ->
             is_top_facing cfg (vertex_normal its v) = true) ->
  fst (generate_support_points vertex_normal place_samples its widths cfg g)
  = [].
Proof.
  intros Htop.
  destruct (fst (generate_support_points vertex_normal place_samples
                   its widths cfg g)) as [| pr out] eqn:E; [reflexivity |].
  assert (Hin : In pr (fst (generate_support_points vertex_normal
                              place_samples its widths cfg g)))
    by (rewrite E; left; reflexivity).
  apply generate_for_vertices_origin in Hin
    as (v & width & g0 & Hv & _ & Hnot & _).
  apply in_seq in Hv. rewrite Htop in Hnot by lia. discriminate.
Qed.

End SupportPointsProperties.

(** ** Direction sampler *)

Section FibonacciSphereProperties.

Import FibonacciSphere.
Local Open Scope R_scope.

Variables polar azimuth : nat -> nat -> R.

Lemma Rleb_true_iff (a b : R) : Rleb a b = true <-> a <= b.
Proof.
  unfold Rleb. destruct (Rle_dec a b); split; auto; discriminate.
Qed.

Lemma spiral_point_unit (count i : nat) :
  dot (spiral_point polar azimuth count i)
      (spiral_point polar azimuth count i) = 1.
Proof.
  unfold dot, spiral_point; simpl.
  pose proof (sin2_cos2 (polar count i)) as Hp.
  pose proof (sin2_cos2 (azimuth count i)) as Ha.
  unfold Rsqr in *.
  replace (sin (polar count i) * cos (azimuth count i)
           * (sin (polar count i) * cos (azimuth count i))
           + sin (polar count i) * sin (azimuth count i)
             * (sin (polar count i) * sin (azimuth count i))
           + cos (polar count i) * cos (polar count i))
    with (sin (polar count i) * sin (polar count i)
          * (sin (azimuth count i) * sin (azimuth count i)
             + cos (azimuth count i) * cos (azimuth count i))
          + cos (polar count i) * cos (polar count i)) by ring.
  rewrite Ha. lra.
Qed.

Lemma spiral_point_pole (count i : nat) :
  dot (spiral_point polar azimuth count i) pole = cos (polar count i).
Proof. unfold dot, spiral_point, pole; simpl. ring. Qed.

Lemma spiral_point_polar_angle (count i : nat) :
  0 <= polar count i <= PI ->
  polar_angle (spiral_point polar azimuth count i) = polar count i.
Proof.
  intros H. unfold polar_angle. rewrite spiral_point_pole.
  apply acos_cos. exact H.
Qed.

Lemma create_fibonacci_sphere_samples_In (angle : R) (count : nat)
    (d : Direction) :
  In d (create_fibonacci_sphere_samples polar azimuth angle count) ->
  exists i, (i < count)%nat
    /\ d = mkDirection (spiral_point polar azimuth count i)
                       (cos (polar count i))
    /\ 0 <= polar count i <= PI / 2
    /\ polar count i <= angle * PI / 180.
Proof.
  unfold create_fibonacci_sphere_samples. intros H.
  apply in_map_iff in H as (i & <- & Hi).
  apply filter_In in Hi as [Hi Hc]. apply in_seq in Hi.
  unfold on_half_sphere, in_cone in Hc.
  rewrite !andb_true_iff, !Rleb_true_iff in Hc.
  exists i. rewrite spiral_point_pole. repeat split; try tauto; lia.
Qed.

(** C5: every direction create_fibonacci_sphere_samples returns is a unit
    vector whose polar angle from the pole axis is at most the cone angle;
    its weight is its cosine with the pole axis and is not negative; of two
    returned directions the one with the smaller polar angle has the larger
    weight. *)
Theorem create_fibonacci_sphere_samples_cone :
  forall (angle : R) (count_samples : nat),
    let out :=
      create_fibonacci_sphere_samples polar azimuth angle count_samples in
    (forall d, In d out ->
       dot (dir d) (dir d) = 1
       /\ polar_angle (dir d) <= angle * PI / 180
       /\ weight d = dot (dir d) pole
       /\ weight d = cos (polar_angle (dir d))
       /\ 0 <= weight d)
    /\ (forall d1 d2, In d1 out -> In d2 out ->
          polar_angle (dir d1) < polar_angle (dir d2) ->
          weight d2 < weight d1).
Proof.
  intros angle count out.
  assert (Hone : forall d, In d out ->
            exists t, 0 <= t <= PI / 2 /\ t <= angle * PI / 180
                      /\ polar_angle (dir d) = t /\ weight d = cos t
                      /\ dot (dir d) (dir d) = 1
                      /\ weight d = dot (dir d) pole).
  { intros d Hd.
    apply create_fibonacci_sphere_samples_In in Hd
      as (i & Hi & -> & Hhalf & Hcone).
    exists (polar count i). simpl.
    pose proof PI_RGT_0.
    rewrite spiral_point_polar_angle by lra.
    rewrite spiral_point_unit, spiral_point_pole. repeat split; tauto. }
  split.
  - intros d Hd.
    destruct (Hone d Hd) as (t & Ht & Hcone & Hpolar & Hw & Hunit & Hdot).
    rewrite Hpolar, Hw. repeat split; auto.
    + rewrite <- Hw. exact Hdot.
    + apply cos_ge_0; lra.
  - intros d1 d2 Hd1 Hd2.
    destruct (Hone d1 Hd1) as (t1 & Ht1 & _ & -> & -> & _).
    destruct (Hone d2 Hd2) as (t2 & Ht2 & _ & -> & -> & _).
    pose proof PI_RGT_0.
    apply cos_decreasing_1; lra.
Qed.

End FibonacciSphereProperties.

Lemma create_fibonacci_sphere_samples_cone_witness :
  (FibonacciSphere.weight
     (FibonacciSphere.mkDirection (FibonacciSphere.mkVec3 0 0 1) 1)
   = FibonacciSphere.dot (FibonacciSphere.mkVec3 0 0 1) FibonacciSphere.pole)%R.
Proof.
  pose proof (create_fibonacci_sphere_samples_cone
                (fun _ _ => 0%R) (fun _ _ => 0%R) 120%R 1%nat) as [H _].
  cbv zeta in H.
  assert (Hout : FibonacciSphere.create_fibonacci_sphere_samples
                   (fun _ _ => 0%R) (fun _ _ => 0%R) 120%R 1%nat
                 = [FibonacciSphere.mkDirection
                      (FibonacciSphere.mkVec3 0 0 1) 1]).
  { unfold FibonacciSphere.create_fibonacci_sphere_samples,
      FibonacciSphere.on_half_sphere, FibonacciSphere.in_cone,
      FibonacciSphere.Rleb, FibonacciSphere.spiral_point,
      FibonacciSphere.dot, FibonacciSphere.pole.
    simpl. pose proof PI_RGT_0.
    destruct (Rle_dec 0 0) as [_ | N]; [| exfalso; apply N; lra].
    destruct (Rle_dec 0 (PI / 2)) as [_ | N]; [| exfalso; apply N; lra].
    destruct (Rle_dec 0 (120 * PI / 180)) as [_ | N];
      [| exfalso; apply N; lra].
    simpl. rewrite sin_0, cos_0. f_equal. f_equal; [f_equal |]; lra. }
  rewrite Hout in H.
  apply (H (FibonacciSphere.mkDirection (FibonacciSphere.mkVec3 0 0 1) 1)).
  left. reflexivity.
Defined.

(** ** Evaluations *)

(** Three samples of radius 1 on a line: the second lies within the radius
    of the first and is removed, the third is out of reach and stays. *)
Example thin_three_on_a_line :
  poisson_sphere_from_samples
    [mkPointRadius (mkVec3f 0 0 0) 1; mkPointRadius (mkVec3f (1 # 2) 0 0) 1;
     mkPointRadius (mkVec3f 3 0 0) 1] []
  = [mkPointRadius (mkVec3f 0 0 0) 1; mkPointRadius (mkVec3f 3 0 0) 1].
Proof. reflexivity. Qed.

(** The examples of the width estimator run with [exact_arithmetic].  Two
    rays of weight 1 that hit at distances 2 and 4: both are within 1.5
    standard deviations of the mean, and the width is 3. *)
Example calc_width_two_hits :
  calc_width (Tree3f := unit)
             (fun _ _ ray => Some (vz ray + 1, 0%nat)) (fun _ v => v)
             (fun _ _ => 0) 3 (-1 # 1)
             (mkVec3f 0 0 0) (mkVec3f 0 0 1)
             (mkAABBTree tt [] (mkIts [] []))
             (RaysConfig.default
                [mkDirection (mkVec3f 0 0 1) 1; mkDirection (mkVec3f 0 0 3) 1])
  == 3.
Proof. vm_compute. reflexivity. Qed.

(** With an allowed deviation of a tenth of the standard deviation both
    hits are dropped, and the width is the sentinel. *)
Example calc_width_all_filtered :
  calc_width (Tree3f := unit)
             (fun _ _ ray => Some (vz ray + 1, 0%nat)) (fun _ v => v)
             (fun _ _ => 0) 3 (-1 # 1)
             (mkVec3f 0 0 0) (mkVec3f 0 0 1)
             (mkAABBTree tt [] (mkIts [] []))
             (RaysConfig.mk (1 # 10) (-1 # 1)
                [mkDirection (mkVec3f 0 0 1) 1; mkDirection (mkVec3f 0 0 3) 1]
                (f32 1 1000) (f32 3 10))
  = -1 # 1.
Proof. vm_compute. reflexivity. Qed.

(** The default width range: a width below it has the minimal radius, its
    upper end and a width above it the maximal radius. *)
Example width_to_radius_default :
  width_to_radius SampleConfig.default (f32 1 20) == 3 # 2
  /\ width_to_radius SampleConfig.default 10 == 10
  /\ width_to_radius SampleConfig.default 20 == 10.
Proof. repeat split; vm_compute; reflexivity. Qed.

(** * Further properties *)

(** ** RaysConfig setters *)


(** ** Poisson thinner *)

Lemma sublist_In {A : Type} (l1 l2 : list A) (a : A) :
  sublist l1 l2 -> In a l1 -> In a l2.
Proof.
  intros Hsub Ha. apply list_elem_of_In.
  apply (elem_of_sublist l1 l2 a); [apply list_elem_of_In; exact Ha | exact Hsub].
Qed.

Lemma thin_sublist (samples : PointRadiuses) (g : PointGrid3D.t) :
  sublist (fst (thin samples g)) samples.
Proof.
  revert g. induction samples as [| s rest IH]; intros g; simpl.
  - constructor.
  - destruct (rejected s g).
    + apply sublist_cons, IH.
    + specialize (IH (PointGrid3D.insert s g)).
      destruct (thin rest (PointGrid3D.insert s g)) as [kept g'].
      simpl in *. apply sublist_skip, IH.
Qed.

Lemma thin_fixed (samples : PointRadiuses) (g : PointGrid3D.t) :
  thin (fst (thin samples g)) g = thin samples g.
Proof.
  revert g. induction samples as [| s rest IH]; intros g; simpl.
  - reflexivity.
  - destruct (rejected s g) eqn:Hrej; [apply IH |].
    specialize (IH (PointGrid3D.insert s g)).
    destruct (thin rest (PointGrid3D.insert s g)) as [kept g'] eqn:Hthin.
    simpl in *. rewrite Hrej, IH. reflexivity.
Qed.


(** X3: thinning is idempotent.  Thinning the survivors again against the
    same grid removes nothing more. *)
Theorem poisson_sphere_from_samples_idempotent :
  forall (samples : PointRadiuses) (grid : PointGrid3D.t),
    poisson_sphere_from_samples
      (poisson_sphere_from_samples samples grid) grid
    = poisson_sphere_from_samples samples grid.
Proof.
  intros samples grid. unfold poisson_sphere_from_samples.
  rewrite thin_fixed. reflexivity.
Qed.

(** ** Width estimator *)

Section WidthEstimatorFurther.

Context {Tree3f : Type}.
Variable first_hit : @AABBTree Tree3f -> Vec3f -> Vec3f -> option (float * nat).
Variable rotation_to : Vec3f -> Vec3f -> Vec3f.
Variable angle_between : Vec3f -> Vec3f -> float.
Variable pi : float.
Variable undetermined : float.
Context {arith : FloatArith}.

Lemma cast_ray_unfiltered (point normal : Vec3f) (tree0 : AABBTree)
    (config : RaysConfig.t) (d : Direction) :
  cast_ray first_hit rotation_to angle_between pi point normal tree0
    (RaysConfig.set_no_deviation_filtering
       (RaysConfig.set_no_angle_filtering config)) d
  = match first_hit tree0
            (vadd point (vscale (RaysConfig.safe_move config) normal))
            (rotation_to (vneg normal) (dir d)) with
    | Some (distance, _) => Some (distance, weight d)
    | None => None
    end.
Proof.
  unfold cast_ray. cbn [RaysConfig.safe_move
    RaysConfig.set_no_deviation_filtering RaysConfig.set_no_angle_filtering].
  destruct (first_hit tree0 _ _) as [[distance triangle] |]; reflexivity.
Qed.

(** X7: the filters only remove hits.  After set_no_angle_filtering and
    set_no_deviation_filtering every ray that hits counts, with the distance
    of its first hit and the weight of its direction; under any other
    thresholds the hits that count are a subsequence of those. *)
Theorem surviving_hits_filters_only_remove :
  forall (point normal : Vec3f) (tree0 : AABBTree) (config : RaysConfig.t),
    let unfiltered :=
      RaysConfig.set_no_deviation_filtering
        (RaysConfig.set_no_angle_filtering config) in
    surviving_hits first_hit rotation_to angle_between pi point normal
                   tree0 unfiltered
    = omap (fun d =>
              match first_hit tree0
                      (vadd point
                            (vscale (RaysConfig.safe_move config) normal))
                      (rotation_to (vneg normal) (dir d)) with
              | Some (distance, _) => Some (distance, weight d)
              | None => None
              end)
           (RaysConfig.dirs config)
    /\ sublist
         (surviving_hits first_hit rotation_to angle_between pi point
                         normal tree0 config)
         (surviving_hits first_hit rotation_to angle_between pi point
                         normal tree0 unfiltered).
Proof.
  intros point normal tree0 config unfiltered.
  assert (Hall : surviving_hits first_hit rotation_to angle_between pi
                   point normal tree0 unfiltered
                 = omap (cast_ray first_hit rotation_to angle_between pi
                           point normal tree0 unfiltered)
                        (RaysConfig.dirs config)).
  { reflexivity. }
  split.
  - rewrite Hall. apply list_omap_ext. apply Forall2_same_length_lookup.
    split; [reflexivity |].
    intros i d d' Hd Hd'. rewrite Hd in Hd'. injection Hd' as <-.
    apply cast_ray_unfiltered.
  - rewrite Hall. unfold surviving_hits.
    etrans; [apply deviation_filter_sublist |].
    unfold collect_hits. apply sublist_omap_impl.
    intros d h _ Hcast. unfold unfiltered. rewrite cast_ray_unfiltered.
    apply cast_ray_hit in Hcast as (triangle & -> & <-).
    destruct h; reflexivity.
Qed.

End WidthEstimatorFurther.

(** ** Support-point generator *)

(** X8: the radius grows with the width.  For a width range min_width <
    max_width and a radius range min_radius <= max_radius the mapped radius
    is monotone in the width; at min_width it is min_radius and at max_width
    it is max_radius. *)
Theorem width_to_radius_monotone :
  forall (cfg : SampleConfig.t) (w1 w2 : float),
    SampleConfig.min_width cfg < SampleConfig.max_width cfg ->
    SampleConfig.min_radius cfg <= SampleConfig.max_radius cfg ->
    (w1 <= w2 -> width_to_radius cfg w1 <= width_to_radius cfg w2)
    /\ width_to_radius cfg (SampleConfig.min_width cfg)
       = SampleConfig.min_radius cfg
    /\ width_to_radius cfg (SampleConfig.max_width cfg)
       = SampleConfig.max_radius cfg.
Proof.
  intros cfg w1 w2 Hw Hr. repeat apply conj.
  - intros H12.
    pose proof (width_to_radius_range cfg w1 Hr) as [Hlo1 Hhi1].
    pose proof (width_to_radius_range cfg w2 Hr) as [Hlo2 Hhi2].
    unfold width_to_radius in *.
    destruct (float_le w1 _) eqn:Ha1; [exact Hlo2 |].
    apply float_le_false_iff in Ha1.
    destruct (float_le w2 (SampleConfig.min_width cfg)) eqn:Ha2;
      [apply float_le_iff in Ha2; lra |].
    destruct (float_le _ w2) eqn:Hb2; [exact Hhi1 |].
    apply float_le_false_iff in Hb2.
    destruct (float_le _ w1) eqn:Hb1; [apply float_le_iff in Hb1; lra |].
    apply Qplus_le_r. unfold Qdiv. apply Qmult_le_compat_r.
    + nra.
    + apply Qinv_le_0_compat. lra.
  - unfold width_to_radius.
    assert (E : float_le (SampleConfig.min_width cfg)
                         (SampleConfig.min_width cfg) = true)
      by (apply float_le_iff; lra).
    rewrite E. reflexivity.
  - unfold width_to_radius.
    assert (E1 : float_le (SampleConfig.max_width cfg)
                          (SampleConfig.min_width cfg) = false)
      by (apply float_le_false_iff; lra).
    assert (E2 : float_le (SampleConfig.max_width cfg)
                          (SampleConfig.max_width cfg) = true)
      by (apply float_le_iff; lra).
    rewrite E1, E2. reflexivity.
Qed.

Lemma width_to_radius_monotone_witness :
  width_to_radius SampleConfig.default (1 # 2)
  <= width_to_radius SampleConfig.default 5.
Proof.
  apply (width_to_radius_monotone SampleConfig.default (1 # 2) 5);
    vm_compute; congruence.
Defined.

(** ** Direction sampler *)

Lemma sublist_List_map {A B : Type} (f : A -> B) (l1 l2 : list A) :
  sublist l1 l2 -> sublist (List.map f l1) (List.map f l2).
Proof.
  induction 1; simpl; [constructor | apply sublist_skip | apply sublist_cons];
    assumption.
Qed.

Lemma sublist_filter_impl {A : Type} (p q : A -> bool) (l : list A) :
  (forall a, p a = true -> q a = true) ->
  sublist (List.filter p l) (List.filter q l).
Proof.
  intros Himp. induction l as [| a l IH]; simpl; [constructor |].
  destruct (p a) eqn:Hp.
  - rewrite (Himp a Hp). apply sublist_skip, IH.
  - destruct (q a); [apply sublist_cons |]; exact IH.
Qed.

Section FibonacciSphereFurther.

Import FibonacciSphere.
Local Open Scope R_scope.

Variables polar azimuth : nat -> nat -> R.

(** X9: the cone only filters.  At most count_samples directions are
    returned, and the directions of a narrower cone are a subsequence of
    those of a wider cone with the same count. *)
Theorem create_fibonacci_sphere_samples_filters :
  forall (angle1 angle2 : R) (count_samples : nat),
    (length (create_fibonacci_sphere_samples polar azimuth angle1
                                             count_samples)
     <= count_samples)%nat
    /\ (angle1 <= angle2 ->
        sublist
          (create_fibonacci_sphere_samples polar azimuth angle1
                                           count_samples)
          (create_fibonacci_sphere_samples polar azimuth angle2
                                           count_samples)).
Proof.
  intros angle1 angle2 count. unfold create_fibonacci_sphere_samples. split.
  - rewrite length_map.
    etrans; [apply sublist_length, sublist_List_filter |].
    rewrite length_seq. reflexivity.
  - intros Hle. apply sublist_List_map, sublist_filter_impl.
    intros i. rewrite !andb_true_iff. intros [Hhalf Hcone].
    split; [exact Hhalf |].
    unfold in_cone in *. rewrite Rleb_true_iff in *.
    pose proof PI_RGT_0. nra.
Qed.

End FibonacciSphereFurther.

(** ** Support-point generator, further *)

Lemma generate_support_points_top_facing_witness :
  fst (generate_support_points (mt19937 := unit)
         (fun _ _ => mkVec3f 0 0 1)
         (fun its v _ g => ([mkVec3f 0 0 0], g))
         (mkIts [mkVec3f 0 0 0; mkVec3f 2 0 0; mkVec3f 2 2 0; mkVec3f 0 2 0]
                [(0, 1, 2)%nat; (0, 2, 3)%nat])
         [1; 1; 1; 1] SampleConfig.default tt)
  = [].
Proof.
  apply (generate_support_points_top_facing (mt19937 := unit)
           (fun _ _ => mkVec3f 0 0 1)
           (fun its v _ g => ([mkVec3f 0 0 0], g))).
  intros v Hv. reflexivity.
Defined.
